(** * Customer directory page ([src/pages/index.tsx])

    A shallow embedding of the [Home] component: its four pieces of React
    state, the [fetcher] handed to [useSWR], and the event handlers
    [handleInputChange], [handleSubmit] and [handleClose].

    Handlers are written in a small free monad [Prog] whose nodes are the
    things the TypeScript does: calling a state setter, calling swr's
    [mutate], awaiting [fetch], awaiting [response.json()], throwing.
    [try]/[catch]/[finally] are combinators on [Prog].  A handler is run
    against a network (a function from requests to settled responses); the
    run yields the settled result, the final component state and the trace
    of everything that happened, in order.

    The rest of the page follows: [displayName], the heading, the table
    body and the alert of the dialog as functions of what the component
    renders from; and the page as a reactive system, [turn], in which
    controls fire as their [disabled] and [open] attributes allow and
    parked handlers resume when the network answers. *)

From stdpp Require Import gmap strings list fin_maps pretty.

Open Scope string_scope.
Set Warnings "-register-all".

(** ** JavaScript values *)

(** What [JSON.parse] (hence [response.json()]) can produce.  Numbers are
    kept as integers: the page never computes with them, it only tests
    them for truthiness and prints them.  [JNum n] stands for an integer
    below 1e21 in magnitude, which JavaScript prints with all its digits;
    fractions and larger numbers are outside this type. *)
Inductive Json : Type :=
| JNull
| JBool (b : bool)
| JNum (n : Z)
| JStr (s : string)
| JArr (items : list Json)
| JObj (props : list (string * Json)).

(** A value that is thrown, or with which a promise rejects: an instance of
    [Error] (only its [message] is ever read), or any other value. *)
Inductive Thrown : Type :=
| ThrownError (message : string)
| ThrownValue (v : Json).

(** A settled promise. *)
Inductive Settled (A : Type) : Type :=
| Fulfilled (a : A)
| Rejected (reason : Thrown).
Arguments Fulfilled {A} a.
Arguments Rejected {A} reason.

(** [!!v] of JavaScript. *)
Definition truthy (v : Json) : bool :=
  match v with
  | JNull => false
  | JBool b => b
  | JNum n => negb (n =? 0)%Z
  | JStr s => negb (String.eqb s "")
  | JArr _ => true
  | JObj _ => true
  end.

(** Truthiness of a string-valued property that may be [undefined]. *)
Definition truthyField (f : option string) : bool :=
  match f with
  | None => false
  | Some s => negb (String.eqb s "")
  end.

(** First binding of [name] among the own properties of an object. *)
Fixpoint ownProp (props : list (string * Json)) (name : string) : option Json :=
  match props with
  | [] => None
  | (k, v) :: rest => if String.eqb k name then Some v else ownProp rest name
  end.

(** The text of the [TypeError] raised by a property read on [null]. *)
Definition nullReadMessage : string :=
  "Cannot read properties of null (reading 'message')".

(** [v.message]: [None] is [undefined]; reading a property of [null]
    throws a [TypeError]; primitives and arrays have no such property. *)
Definition dotMessage (v : Json) : Settled (option Json) :=
  match v with
  | JNull => Rejected (ThrownError nullReadMessage)
  | JObj props => Fulfilled (ownProp props "message")
  | _ => Fulfilled None
  end.

(** [String(v)], as applied by [new Error(v)] to its argument, for
    objects that have no own property named [toString] (with one,
    [String] throws a [TypeError] instead of printing). *)
Fixpoint toString (v : Json) : string :=
  match v with
  | JNull => "null"
  | JBool true => "true"
  | JBool false => "false"
  | JNum n => pretty n
  | JStr s => s
  | JArr items =>
      (fix join (l : list Json) : string :=
         match l with
         | [] => ""
         | x :: rest =>
             let shown := match x with JNull => "" | _ => toString x end in
             match rest with
             | [] => shown
             | _ :: _ => shown +:+ "," +:+ join rest
             end
         end) items
  | JObj _ => "[object Object]"
  end.

(** [a || b] where [a] may be [undefined]. *)
Definition orElse (a : option Json) (b : Json) : Json :=
  match a with
  | Some v => if truthy v then v else b
  | None => b
  end.

(** ** The wire *)

(** [Customer]: a JavaScript object with string-valued properties.  The
    form writes it through a computed key, so it is a finite map. *)
Abbreviation Customer := (gmap string string).

Definition emptyCustomer : Customer :=
  {[ "firstName" := ""; "lastName" := ""; "email" := "" ]}.

Record Request : Type := mkRequest {
  url : string;
  method : string;
  headers : list (string * string);
  body : option Customer   (* the object given to JSON.stringify *)
}.

(** A [Response]: its status, and what [response.json()] settles to. *)
Record Response : Type := mkResponse {
  status : Z;
  json : Settled Json
}.

(** [response.ok]: the status is in the range 200-299. *)
Definition ok (r : Response) : bool :=
  ((200 <=? status r) && (status r <=? 299))%Z.

Definition apiCustomers : string := "/api/customers".

Definition getRequest (u : string) : Request :=
  {| url := u; method := "GET"; headers := []; body := None |}.

Definition postCustomer (c : Customer) : Request :=
  {| url := apiCustomers; method := "POST";
     headers := [("Content-Type", "application/json")];
     body := Some c |}.

(** ** Component state *)

Record State : Type := mkState {
  isModalOpen : bool;
  isSubmitting : bool;
  submitError : option string;
  newCustomer : Customer
}.

Definition initialState : State :=
  {| isModalOpen := false; isSubmitting := false;
     submitError := None; newCustomer := emptyCustomer |}.

(** The synchronous calls a handler can make: the four state setters, and
    swr's global [mutate(key)]. *)
Inductive Effect : Type :=
| SetIsModalOpen (b : bool)
| SetIsSubmitting (b : bool)
| SetSubmitError (e : option string)
| SetNewCustomer (c : Customer)
| Mutate (key : string).

Definition applyEffect (e : Effect) (st : State) : State :=
  match e with
  | SetIsModalOpen b =>
      {| isModalOpen := b; isSubmitting := isSubmitting st;
         submitError := submitError st; newCustomer := newCustomer st |}
  | SetIsSubmitting b =>
      {| isModalOpen := isModalOpen st; isSubmitting := b;
         submitError := submitError st; newCustomer := newCustomer st |}
  | SetSubmitError m =>
      {| isModalOpen := isModalOpen st; isSubmitting := isSubmitting st;
         submitError := m; newCustomer := newCustomer st |}
  | SetNewCustomer c =>
      {| isModalOpen := isModalOpen st; isSubmitting := isSubmitting st;
         submitError := submitError st; newCustomer := c |}
  | Mutate _ => st
  end.

(** ** Handler programs *)

Inductive Prog (A : Type) : Type :=
| Ret (a : A)
| Throw (e : Thrown)
| Do (e : Effect) (k : Prog A)
| AwaitFetch (req : Request) (k : Settled Response -> Prog A)
| AwaitJson (r : Response) (k : Settled Json -> Prog A).
Arguments Ret {A} a.
Arguments Throw {A} e.
Arguments Do {A} e k.
Arguments AwaitFetch {A} req k.
Arguments AwaitJson {A} r k.

Fixpoint bind {A B : Type} (p : Prog A) (f : A -> Prog B) : Prog B :=
  match p with
  | Ret a => f a
  | Throw e => Throw e
  | Do e k => Do e (bind k f)
  | AwaitFetch req k => AwaitFetch req (fun o => bind (k o) f)
  | AwaitJson r k => AwaitJson r (fun o => bind (k o) f)
  end.

Notation "x <- p ;; q" := (bind p (fun x => q))
  (at level 100, p at next level, right associativity).
Notation "p ;;; q" := (bind p (fun _ => q))
  (at level 100, right associativity).

(** [try { p } catch (err) { h err }] *)
Fixpoint tryCatch {A : Type} (p : Prog A) (h : Thrown -> Prog A) : Prog A :=
  match p with
  | Ret a => Ret a
  | Throw e => h e
  | Do e k => Do e (tryCatch k h)
  | AwaitFetch req k => AwaitFetch req (fun o => tryCatch (k o) h)
  | AwaitJson r k => AwaitJson r (fun o => tryCatch (k o) h)
  end.

(** [try { p } finally { f }]: [f] runs on both exits, and the exit of [p]
    is kept unless [f] itself throws. *)
Fixpoint tryFinally {A : Type} (p : Prog A) (f : Prog unit) : Prog A :=
  match p with
  | Ret a => f ;;; Ret a
  | Throw e => f ;;; Throw e
  | Do e k => Do e (tryFinally k f)
  | AwaitFetch req k => AwaitFetch req (fun o => tryFinally (k o) f)
  | AwaitJson r k => AwaitJson r (fun o => tryFinally (k o) f)
  end.

Definition call (e : Effect) : Prog unit := Do e (Ret tt).

(** [await] of a settled promise: the value, or a throw of the reason. *)
Definition settle {A : Type} (o : Settled A) : Prog A :=
  match o with
  | Fulfilled a => Ret a
  | Rejected e => Throw e
  end.

Definition fetch (req : Request) : Prog Response := AwaitFetch req settle.
Definition responseJson (r : Response) : Prog Json := AwaitJson r settle.

(** ** The code of the page *)

(** [fetcher], lines 51-56. *)
Definition fetcher (u : string) : Prog Json :=
  response <- fetch (getRequest u) ;;
  body <- responseJson response ;;
  if negb (ok response) then Throw (ThrownValue body) else Ret body.

(** [handleInputChange], lines 64-67; [name] and [value] are those of the
    event's target. *)
Definition handleInputChange (newCustomer : Customer) (name value : string)
  : Prog unit :=
  call (SetNewCustomer (<[name := value]> newCustomer)).

Definition fillMessage : string := "Please fill in all required fields".
Definition addFailedMessage : string := "Failed to add customer".
Definition unexpectedMessage : string := "An unexpected error occurred".

(** The condition of the validation [if], line 74. *)
Definition missingField (c : Customer) : bool :=
  negb (truthyField (c !! "firstName"))
  || negb (truthyField (c !! "lastName"))
  || negb (truthyField (c !! "email")).

(** The body of the [try] block, lines 80-98. *)
Definition submitBody (newCustomer : Customer) : Prog unit :=
  call (SetIsSubmitting true) ;;;
  response <- fetch (postCustomer newCustomer) ;;
  (if negb (ok response) then
     errorData <- responseJson response ;;
     m <- settle (dotMessage errorData) ;;
     Throw (ThrownError (toString (orElse m (JStr addFailedMessage))))
   else Ret tt) ;;;
  call (SetNewCustomer emptyCustomer) ;;;
  call (Mutate apiCustomers) ;;;
  call (SetIsModalOpen false).

(** The [catch] block, lines 99-104. *)
Definition submitCatch (err : Thrown) : Prog unit :=
  match err with
  | ThrownError message => call (SetSubmitError (Some message))
  | ThrownValue _ => call (SetSubmitError (Some unexpectedMessage))
  end.

(** [handleSubmit], lines 70-108; [newCustomer] is the value captured by
    the closure. *)
Definition handleSubmit (newCustomer : Customer) : Prog unit :=
  call (SetSubmitError None) ;;;
  if missingField newCustomer then
    call (SetSubmitError (Some fillMessage))
  else
    tryFinally (tryCatch (submitBody newCustomer) submitCatch)
               (call (SetIsSubmitting false)).

(** [handleClose], lines 116-121. *)
Definition handleClose (isSubmitting : bool) : Prog unit :=
  if negb isSubmitting then
    call (SetIsModalOpen false) ;;;
    call (SetSubmitError None)
  else Ret tt.

(** ** Running a handler *)

(** What an observer of one run sees, in order. *)
Inductive Event : Type :=
| EvEffect (e : Effect)
| EvRequest (req : Request)
| EvResponse (o : Settled Response)
| EvJson (o : Settled Json).

Record Run (A : Type) : Type := mkRun {
  result : Settled A;
  final : State;
  trace : list Event
}.
Arguments mkRun {A} result final trace.
Arguments result {A} r.
Arguments final {A} r.
Arguments trace {A} r.

(** The network: what each request settles to. *)
Abbreviation Network := (Request -> Settled Response).

Fixpoint run {A : Type} (net : Network) (p : Prog A) (st : State) : Run A :=
  match p with
  | Ret a => mkRun (Fulfilled a) st []
  | Throw e => mkRun (Rejected e) st []
  | Do e k =>
      let r := run net k (applyEffect e st) in
      mkRun (result r) (final r) (EvEffect e :: trace r)
  | AwaitFetch req k =>
      let r := run net (k (net req)) st in
      mkRun (result r) (final r) (EvRequest req :: EvResponse (net req) :: trace r)
  | AwaitJson resp k =>
      let r := run net (k (json resp)) st in
      mkRun (result r) (final r) (EvJson (json resp) :: trace r)
  end.

(** Where a handler stands when it first gives the event loop back: it has
    finished, or it is waiting on a promise with the rest of its body as
    continuation. *)
Inductive Paused (A : Type) : Type :=
| Finished (o : Settled A)
| OnFetch (req : Request) (k : Settled Response -> Prog A)
| OnJson (r : Response) (k : Settled Json -> Prog A).
Arguments Finished {A} o.
Arguments OnFetch {A} req k.
Arguments OnJson {A} r k.

(** Run the synchronous prefix of a handler. *)
Fixpoint advance {A : Type} (p : Prog A) (st : State) : State * Paused A :=
  match p with
  | Ret a => (st, Finished (Fulfilled a))
  | Throw e => (st, Finished (Rejected e))
  | Do e k => advance k (applyEffect e st)
  | AwaitFetch req k => (st, OnFetch req k)
  | AwaitJson r k => (st, OnJson r k)
  end.

(** The handlers as the rendered component binds them: each closes over
    the state of the render in which it was created. *)
Definition submit (net : Network) (st : State) : Run unit :=
  run net (handleSubmit (newCustomer st)) st.

Definition close (net : Network) (st : State) : Run unit :=
  run net (handleClose (isSubmitting st)) st.

Definition setField (net : Network) (name value : string) (st : State) : Run unit :=
  run net (handleInputChange (newCustomer st) name value) st.

(** ** Views used by the specification *)

(** The pair [isSubmitting], [submitError] read as one variant. *)
Inductive SubmissionState : Type :=
| Idle
| Submitting
| Failed (message : string).

Definition submissionState (st : State) : SubmissionState :=
  if isSubmitting st then Submitting
  else match submitError st with
       | Some m => Failed m
       | None => Idle
       end.

(** Trace predicates. *)
Definition isRequest (ev : Event) : bool :=
  match ev with EvRequest _ => true | _ => false end.

Definition isMutate (ev : Event) : bool :=
  match ev with EvEffect (Mutate _) => true | _ => false end.

Definition isOkResponse (ev : Event) : bool :=
  match ev with EvResponse (Fulfilled r) => ok r | _ => false end.

Definition entersSubmitting (ev : Event) : bool :=
  match ev with EvEffect (SetIsSubmitting true) => true | _ => false end.

(** Whether the create call failed: the transport rejected, or the
    response is not [ok]. *)
Definition createFailed (o : Settled Response) : bool :=
  match o with
  | Fulfilled r => negb (ok r)
  | Rejected _ => true
  end.

(** [guarded seen tr]: every [mutate] in [tr] comes after an [ok] response,
    [seen] telling whether one was received before [tr] starts. *)
Fixpoint guarded (seen : bool) (tr : list Event) : bool :=
  match tr with
  | [] => true
  | ev :: rest =>
      (if isMutate ev then seen else true)
      && guarded (seen || isOkResponse ev) rest
  end.

(** A draft with all three fields present and non-empty. *)
Definition filled (c : Customer) : Prop :=
  exists f l e : string,
    c !! "firstName" = Some f /\ c !! "lastName" = Some l /\ c !! "email" = Some e
    /\ f <> "" /\ l <> "" /\ e <> "".

(** A draft in which one of the three fields is the empty string. *)
Definition someFieldEmpty (c : Customer) : Prop :=
  c !! "firstName" = Some "" \/ c !! "lastName" = Some "" \/ c !! "email" = Some "".

(** ** The list view *)

(** The three states of the list, as the specification names them. *)
Inductive FetchState : Type :=
| Loading
| Error (e : Thrown)
| Ready (d : Json).

(** Modelled from the spec: the [swr] package, whose [useSWR] hook turns
    the settled promise of the fetcher into [data] / [error], is not among
    the sources.  Section 3 gives the two transitions out of [Loading]:
    to [Ready] with the fetched value, to [Error] with the rejection. *)
Definition settleCache (o : Settled Json) : FetchState :=
  match o with
  | Fulfilled d => Ready d
  | Rejected e => Error e
  end.

(** [useSWR('/api/customers', fetcher)] once the fetch has settled (lines
    58-61); the fetcher does not touch the component state. *)
Definition directoryCache (net : Network) : FetchState :=
  settleCache (result (run net (fetcher apiCustomers) initialState)).

(** The [error] binding destructured from the hook. *)
Definition hookError (s : FetchState) : option Thrown :=
  match s with
  | Error e => Some e
  | _ => None
  end.

(** [load()]: the hook calls the fetcher it was given on its key (lines
    58-61). *)
Definition load (net : Network) : Run Json :=
  run net (fetcher apiCustomers) initialState.

(** What happens to the list cache. *)
Inductive CacheEvent : Type :=
| Invalidated
| Loaded (o : Settled Json).

(** Modelled from the spec: how the cache of the [swr] package, which is
    not among the sources, moves.  Section 3: an explicit invalidation
    takes [Ready] or [Error] to [Loading] and triggers a new fetch; the
    fetch takes [Loading] to [Ready] or to [Error]. *)
Definition cacheStep (s : FetchState) (e : CacheEvent) : FetchState :=
  match e with
  | Invalidated => Loading
  | Loaded o =>
      match s with
      | Loading => settleCache o
      | _ => s
      end
  end.

(** Whether a call made by a handler invalidates the list: [mutate] on the
    key the hook of line 59 is subscribed under. *)
Definition invalidates (ev : Event) : bool :=
  match ev with
  | EvEffect (Mutate key) => String.eqb key apiCustomers
  | _ => false
  end.

(** Modelled from the spec: the effect of [swr]'s [mutate(key)], which is
    not among the sources.  Section 4.1: [invalidate()] "marks the current
    data stale and re-issues [load()]". *)
Definition cacheReaction (net : Network) (ev : Event) : list CacheEvent :=
  if invalidates ev then [Invalidated; Loaded (result (load net))] else [].

(** The network traffic of the cache in answer to the calls of a handler:
    one [load()] for each invalidation. *)
Definition cacheTraffic (net : Network) (tr : list Event) : list Event :=
  flat_map (fun ev => if invalidates ev then trace (load net) else []) tr.

(** The state of the cache once it has answered the calls of a handler. *)
Definition cacheAfter (net : Network) (before : FetchState) (tr : list Event)
  : FetchState :=
  foldl cacheStep before (flat_map (cacheReaction net) tr).

(** The text React shows for a value used as a child: none for [null] and
    booleans, the digits of a number, the items of an array in sequence;
    a plain object is not a valid child ([None]). *)
Fixpoint childText (v : Json) : option string :=
  match v with
  | JNull => Some ""
  | JBool _ => Some ""
  | JNum n => Some (pretty n)
  | JStr s => Some s
  | JArr items =>
      (fix each (l : list Json) : option string :=
         match l with
         | [] => Some ""
         | x :: rest =>
             match childText x, each rest with
             | Some a, Some b => Some (a +:+ b)
             | _, _ => None
             end
         end) items
  | JObj _ => None
  end.

Inductive Banner : Type :=
| NoBanner
| Alert (text : string)
| Bare (text : string)      (* a falsy [error] that React still prints *)
| RenderError.

(** [{error && (<Alert ...>{error.message}</Alert>)}], lines 163-167. *)
Definition errorBanner (error : option Thrown) : Banner :=
  match error with
  | None => NoBanner
  | Some (ThrownError message) => Alert message
  | Some (ThrownValue v) =>
      if truthy v then
        match dotMessage v with
        | Fulfilled None => Alert ""
        | Fulfilled (Some m) =>
            match childText m with
            | Some t => Alert t
            | None => RenderError
            end
        | Rejected _ => RenderError
        end
      else
        match childText v with
        | Some "" => NoBanner
        | Some t => Bare t
        | None => RenderError
        end
  end.

(** ** The rest of the page *)

(** A value interpolated in a template literal: [undefined] prints as
    such. *)
Definition interpolate (f : option string) : string :=
  match f with
  | Some s => s
  | None => "undefined"
  end.

(** [displayName], lines 110-113. *)
Definition displayName (customer : Customer) : string :=
  interpolate (customer !! "firstName") +:+ " " +:+ interpolate (customer !! "lastName").

(** The heading, line 143; [data] has the type the hook is given,
    [Customers], or is [undefined].  An array is truthy even when empty. *)
Definition heading (data : option (list Customer)) : string :=
  match data with
  | Some l => pretty (length l) +:+ " Customers"
  | None => "Customers"
  end.

(** One row of the table: its React key and the text of its two cells. *)
Record Row : Type := mkRow {
  rowKey : nat;
  nameCell : string;
  emailCell : string
}.

Inductive TableBody : Type :=
| LoadingRow                      (* "Loading customers..." *)
| CustomerRows (rows : list Row)
| NoCustomersRow.                 (* "No customers found." *)

(** The callback of [data.map], lines 187-194; an [undefined] e-mail
    renders as nothing. *)
Definition customerRow (index : nat) (customer : Customer) : Row :=
  {| rowKey := index;
     nameCell := displayName customer;
     emailCell := default "" (customer !! "email") |}.

(** The body of the table, lines 179-201. *)
Definition tableBody (isLoading : bool) (data : option (list Customer)) : TableBody :=
  if isLoading then LoadingRow
  else match data with
       | Some (c :: rest) => CustomerRows (imap customerRow (c :: rest))
       | _ => NoCustomersRow
       end.

(** The alert inside the dialog, lines 218-222: [None] when nothing is
    rendered, which is also what an empty message gives. *)
Definition dialogAlert (submitError : option string) : option string :=
  match submitError with
  | Some s => if String.eqb s "" then None else Some s
  | None => None
  end.

(** The label of the submit button, line 279. *)
Definition createLabel (isSubmitting : bool) : string :=
  if isSubmitting then "Creating..." else "Create".

(** The [onClick] of the "Add Customer" button, line 148. *)
Definition handleOpen : Prog unit := call (SetIsModalOpen true).

Definition openDialog (net : Network) (st : State) : Run unit :=
  run net handleOpen st.

(** ** The page as a reactive system *)

(** The three text fields of the dialog, by their [name] attribute (lines
    226, 237 and 250). *)
Inductive Field : Type := FirstName | LastName | Email.

Definition fieldName (f : Field) : string :=
  match f with
  | FirstName => "firstName"
  | LastName => "lastName"
  | Email => "email"
  end.

(** What the user can do to the page. *)
Inductive UserEvent : Type :=
| ClickAdd                                  (* the "Add Customer" button *)
| ChangeField (f : Field) (value : string)  (* typing in a text field *)
| ClickCancel
| ClickCreate
| DismissDialog.                            (* escape key or backdrop: [onClose] *)

(** The handler the JSX binds to each control, closed over the state of
    the current render. *)
Definition handlerOf (ev : UserEvent) (st : State) : Prog unit :=
  match ev with
  | ClickAdd => handleOpen
  | ChangeField f value => handleInputChange (newCustomer st) (fieldName f) value
  | ClickCancel => handleClose (isSubmitting st)
  | ClickCreate => handleSubmit (newCustomer st)
  | DismissDialog => handleClose (isSubmitting st)
  end.

(** Whether a control reacts: the controls of the dialog exist only while
    [open={isModalOpen}] holds, and a button with [disabled] set does not
    fire.  [isLoading] is the flag the list hook currently reports. *)
Definition reacts (isLoading : bool) (st : State) (ev : UserEvent) : bool :=
  match ev with
  | ClickAdd => negb isLoading
  | ChangeField _ _ => isModalOpen st
  | ClickCancel => isModalOpen st && negb (isSubmitting st)
  | ClickCreate => isModalOpen st && negb (isSubmitting st)
  | DismissDialog => isModalOpen st
  end.

(** The page between two turns of the event loop: the component state,
    the handlers parked on a promise, and the reasons of the handlers that
    ended by throwing (unhandled rejections). *)
Record Page : Type := mkPage {
  ui : State;
  inflight : list (Paused unit);
  unhandled : list Thrown
}.

Definition initialPage : Page :=
  {| ui := initialState; inflight := []; unhandled := [] |}.

(** A handler that paused is parked; one that finished is not. *)
Definition parked (p : Paused unit) : list (Paused unit) :=
  match p with
  | Finished _ => []
  | _ => [p]
  end.

Definition thrownBy (p : Paused unit) : list Thrown :=
  match p with
  | Finished (Rejected e) => [e]
  | _ => []
  end.

(** The page after a handler ran from [st] up to its next pause, the other
    parked handlers being [before] and [after]. *)
Definition landed (before after : list (Paused unit)) (errs : list Thrown)
    (outcome : State * Paused unit) : Page :=
  {| ui := outcome.1;
     inflight := before ++ parked outcome.2 ++ after;
     unhandled := errs ++ thrownBy outcome.2 |}.

(** A control fires: its handler runs from the current state to its first
    pause. *)
Definition fire (ev : UserEvent) (w : Page) : Page :=
  landed (inflight w) [] (unhandled w) (advance (handlerOf ev (ui w)) (ui w)).

(** One turn of the event loop: a control fires and its handler runs to
    its first pause; or a pending [fetch] settles, in any way, and the
    handler parked on it resumes; or the body of a response settles and
    the handler parked on it resumes. *)
Inductive turn : Page -> Page -> Prop :=
| turn_user (isLoading : bool) (ev : UserEvent) (w : Page) :
    reacts isLoading (ui w) ev = true ->
    turn w (fire ev w)
| turn_response (w : Page) (before after : list (Paused unit))
      (req : Request) (k : Settled Response -> Prog unit) (o : Settled Response) :
    inflight w = (before ++ OnFetch req k :: after)%list ->
    turn w (landed before after (unhandled w) (advance (k o) (ui w)))
| turn_body (w : Page) (before after : list (Paused unit))
      (r : Response) (k : Settled Json -> Prog unit) :
    inflight w = (before ++ OnJson r k :: after)%list ->
    turn w (landed before after (unhandled w) (advance (k (json r)) (ui w))).

(** The pages the user and the network can bring about. *)
Definition reachable (w : Page) : Prop := rtc turn initialPage w.

(** A continuation parked on the body of an error response: whatever the
    body, it finishes normally in one go, releasing the flag and leaving
    the dialog and the draft alone. *)
Definition settlesBody (k : Settled Json -> Prog unit) : Prop :=
  forall (o : Settled Json) (st : State),
    exists m : string,
      advance (k o) st
      = ({| isModalOpen := isModalOpen st; isSubmitting := false;
            submitError := Some m; newCustomer := newCustomer st |},
         Finished (Fulfilled tt)).

(** A continuation parked on the create request: it either finishes
    normally with the flag released (draft kept, or reset with the dialog
    closed), or parks again, state untouched, on the body of the
    response. *)
Definition settlesFetch (k : Settled Response -> Prog unit) : Prop :=
  forall (o : Settled Response) (st : State),
    (exists m : string,
        advance (k o) st
        = ({| isModalOpen := isModalOpen st; isSubmitting := false;
              submitError := Some m; newCustomer := newCustomer st |},
           Finished (Fulfilled tt)))
    \/ advance (k o) st
       = ({| isModalOpen := false; isSubmitting := false;
             submitError := submitError st; newCustomer := emptyCustomer |},
          Finished (Fulfilled tt))
    \/ (exists r k', advance (k o) st = (st, OnJson r k') /\ settlesBody k').

Definition submitPause (p : Paused unit) : Prop :=
  match p with
  | Finished _ => False
  | OnFetch _ k => settlesFetch k
  | OnJson _ k => settlesBody k
  end.

(** The three property names of a draft. *)
Definition draftKeys : gset string := {[ "firstName"; "lastName"; "email" ]}.

(** What every reachable page satisfies. *)
Definition pageInvariant (w : Page) : Prop :=
  unhandled w = []
  /\ dom (newCustomer (ui w)) = draftKeys
  /\ ((inflight w = [] /\ isSubmitting (ui w) = false)
      \/ (exists p, inflight w = [p] /\ submitPause p
                    /\ isSubmitting (ui w) = true /\ isModalOpen (ui w) = true)).

(** Whether a string is free of spaces. *)
Fixpoint noSpace (s : string) : bool :=
  match s with
  | EmptyString => true
  | String a rest => negb (Ascii.eqb a Ascii.Space) && noSpace rest
  end.

(** ** Sample inputs *)

Definition ada : Customer :=
  {[ "firstName" := "Ada"; "lastName" := "Lovelace"; "email" := "ada@example.com" ]}.

(** The dialog open on a draft, nothing in flight. *)
Definition adaOpen : State :=
  {| isModalOpen := true; isSubmitting := false;
     submitError := None; newCustomer := ada |}.

(** The same after a failed attempt. *)
Definition adaFailed : State :=
  {| isModalOpen := true; isSubmitting := false;
     submitError := Some "Email is invalid"; newCustomer := ada |}.

(** The same while the create request is pending. *)
Definition adaSubmitting : State :=
  {| isModalOpen := true; isSubmitting := true;
     submitError := None; newCustomer := ada |}.

(** The dialog open on a draft whose e-mail is still empty. *)
Definition noEmailOpen : State :=
  {| isModalOpen := true; isSubmitting := false; submitError := None;
     newCustomer := {[ "firstName" := "Ada"; "lastName" := "Lovelace"; "email" := "" ]} |}.

Definition created : Response :=
  {| status := 201; json := Fulfilled (JObj [("id", JNum 7)]) |}.

Definition invalidEmail : Response :=
  {| status := 400;
     json := Fulfilled (JObj [("code", JStr "invalid_email");
                              ("message", JStr "Email is invalid")]) |}.

Definition internalBoom : Response :=
  {| status := 500;
     json := Fulfilled (JObj [("code", JStr "internal"); ("message", JStr "boom")]) |}.

(** What a JSON parser says of a body that starts with markup. *)
Definition parseErrorText : string := "Unexpected token < in JSON at position 0".

(** Error responses whose body is an HTML page: [response.json()] rejects
    with a [SyntaxError]. *)
Definition htmlError500 : Response :=
  {| status := 500; json := Rejected (ThrownError parseErrorText) |}.

Definition htmlError502 : Response :=
  {| status := 502; json := Rejected (ThrownError parseErrorText) |}.

Definition always (r : Response) : Network := fun _ => Fulfilled r.

(** The list endpoint answering with one customer. *)
Definition adaJson : Json :=
  JObj [("firstName", JStr "Ada"); ("lastName", JStr "Lovelace");
        ("email", JStr "ada@example.com")].

Definition listing : Response :=
  {| status := 200; json := Fulfilled (JArr [adaJson]) |}.

(** A working backend: creations answer 201, reads answer the listing. *)
Definition backend : Network :=
  fun req => if String.eqb (method req) "POST" then Fulfilled created
             else Fulfilled listing.

(** No connectivity: [fetch] rejects with a [TypeError]. *)
Definition offline : Network := fun _ => Rejected (ThrownError "Failed to fetch").

(** The page after the user opened the dialog, typed the three fields and
    pressed Create: the create request is pending. *)
Definition submittedPage : Page :=
  fire ClickCreate
    (fire (ChangeField Email "ada@example.com")
       (fire (ChangeField LastName "Lovelace")
          (fire (ChangeField FirstName "Ada")
             (fire ClickAdd initialPage)))).

(** A success without a body: [response.json()] would reject. *)
Definition noContent : Response :=
  {| status := 204; json := Rejected (ThrownError "Unexpected end of JSON input") |}.

(** * Properties *)

(** ** Running composite programs *)

Section RunLaws.
Context {A : Type} (net : Network).

(** A run of [p ;; f] is the run of [p] followed, when [p] returns, by
    the run of [f] from the state [p] left. *)
Lemma run_bind {B : Type} (p : Prog A) (f : A -> Prog B) (st : State) :
  run net (bind p f) st =
    match result (run net p st) with
    | Fulfilled a =>
        let r := run net (f a) (final (run net p st)) in
        mkRun (result r) (final r) (trace (run net p st) ++ trace r)
    | Rejected e =>
        mkRun (Rejected e) (final (run net p st)) (trace (run net p st))
    end.
Proof.
  revert st.
  induction p as [a | e | e k IH | req k IH | r k IH]; intros st; simpl.
  - by destruct (run net (f a) st).
  - done.
  - rewrite IH. destruct (result (run net k (applyEffect e st))); reflexivity.
  - rewrite IH. destruct (result (run net (k (net req)) st)); reflexivity.
  - rewrite IH. destruct (result (run net (k (json r)) st)); reflexivity.
Qed.

(** A run of [try p catch h]. *)
Lemma run_tryCatch (p : Prog A) (h : Thrown -> Prog A) (st : State) :
  run net (tryCatch p h) st =
    match result (run net p st) with
    | Fulfilled a =>
        mkRun (Fulfilled a) (final (run net p st)) (trace (run net p st))
    | Rejected e =>
        let r := run net (h e) (final (run net p st)) in
        mkRun (result r) (final r) (trace (run net p st) ++ trace r)
    end.
Proof.
  revert st.
  induction p as [a | e | e k IH | req k IH | r k IH]; intros st; simpl.
  - done.
  - by destruct (run net (h e) st).
  - rewrite IH. destruct (result (run net k (applyEffect e st))); reflexivity.
  - rewrite IH. destruct (result (run net (k (net req)) st)); reflexivity.
  - rewrite IH. destruct (result (run net (k (json r)) st)); reflexivity.
Qed.

(** A run of [try p finally f] when [f] is a single setter call: the
    setter is applied last, whatever the exit of [p]. *)
Lemma run_tryFinally_call (p : Prog A) (e : Effect) (st : State) :
  run net (tryFinally p (call e)) st =
    mkRun (result (run net p st))
          (applyEffect e (final (run net p st)))
          (trace (run net p st) ++ [EvEffect e]).
Proof.
  revert st.
  induction p as [a | e' | e' k IH | req k IH | r k IH]; intros st; simpl;
    try done; by rewrite IH.
Qed.
End RunLaws.

(** ** The validation test *)

Lemma filled_not_missing (c : Customer) : filled c -> missingField c = false.
Proof.
  intros (f & l & e & Hf & Hl & He & Nf & Nl & Ne).
  unfold missingField. rewrite Hf, Hl, He. simpl.
  apply String.eqb_neq in Nf, Nl, Ne. by rewrite Nf, Nl, Ne.
Qed.

Lemma someFieldEmpty_missing (c : Customer) :
  someFieldEmpty c -> missingField c = true.
Proof.
  unfold missingField.
  intros [H | [H | H]]; rewrite H; simpl.
  - done.
  - by rewrite orb_true_r.
  - by rewrite orb_true_r.
Qed.

Lemma ada_filled : filled ada.
Proof.
  exists "Ada", "Lovelace", "ada@example.com".
  repeat split; try reflexivity; discriminate.
Qed.

Lemma ada_not_empty : ada <> emptyCustomer.
Proof.
  intros H. apply (f_equal (fun c : Customer => c !! "firstName")) in H.
  vm_compute in H. discriminate.
Qed.

(** ** C1: the validation gate *)

(** C1.  When one of [firstName], [lastName], [email] of the draft is the
    empty string, [submit] calls the two error setters and nothing else: no
    request is issued, the error message becomes "Please fill in all
    required fields", the submitting flag is never set, and the handler
    returns normally. *)
Theorem submit_validation_gate (net : Network) (st : State) :
  someFieldEmpty (newCustomer st) ->
  trace (submit net st) =
    [EvEffect (SetSubmitError None);
     EvEffect (SetSubmitError (Some "Please fill in all required fields"))]
  /\ Forall (fun ev => isRequest ev = false /\ entersSubmitting ev = false)
            (trace (submit net st))
  /\ submitError (final (submit net st)) = Some "Please fill in all required fields"
  /\ isSubmitting (final (submit net st)) = isSubmitting st
  /\ result (submit net st) = Fulfilled tt.
Proof.
  intros Hempty.
  unfold submit, handleSubmit.
  rewrite (someFieldEmpty_missing _ Hempty). simpl.
  repeat split; try reflexivity.
  repeat constructor.
Qed.

Lemma submit_validation_gate_witness :
  submitError (final (submit (always created) noEmailOpen))
  = Some "Please fill in all required fields".
Proof.
  refine (proj1 (proj2 (proj2 (submit_validation_gate (always created) noEmailOpen _)))).
  right; right. reflexivity.
Defined.

(** ** C2: closing the dialog *)

(** C2, as stated, fails: closing the dialog while nothing is in flight
    leaves the draft as it was, it does not reset it to the empty record. *)
Lemma close_resets_draft_counterexample :
  submissionState adaFailed <> Submitting
  /\ newCustomer (final (close offline adaFailed)) = ada
  /\ newCustomer (final (close offline adaFailed)) <> emptyCustomer.
Proof.
  split; [discriminate |]. split; [reflexivity |].
  exact ada_not_empty.
Qed.

(** C2, amended.  When nothing is being submitted, [close] closes the
    dialog and clears the error message, leaving the draft unchanged; while
    a submission is in flight it does nothing at all. *)
Theorem close_spec (net : Network) (st : State) :
  (submissionState st <> Submitting ->
     isModalOpen (final (close net st)) = false
     /\ submitError (final (close net st)) = None
     /\ submissionState (final (close net st)) = Idle
     /\ newCustomer (final (close net st)) = newCustomer st)
  /\ (submissionState st = Submitting ->
        final (close net st) = st /\ trace (close net st) = []).
Proof.
  unfold close, handleClose, submissionState.
  destruct st as [open submitting err draft]; simpl.
  destruct submitting; simpl.
  - split; [intros H; by destruct H | done].
  - split; [done |]. by destruct err.
Qed.

Lemma close_spec_witness :
  (isModalOpen (final (close offline adaFailed)) = false
   /\ submitError (final (close offline adaFailed)) = None
   /\ submissionState (final (close offline adaFailed)) = Idle
   /\ newCustomer (final (close offline adaFailed)) = newCustomer adaFailed)
  /\ (final (close offline adaSubmitting) = adaSubmitting
      /\ trace (close offline adaSubmitting) = []).
Proof.
  split.
  - apply (proj1 (close_spec offline adaFailed)). discriminate.
  - apply (proj2 (close_spec offline adaSubmitting)). reflexivity.
Defined.

(** While the create request of a filled draft is pending, the component
    is in the submitting state, so a [close] arriving then is the no-op
    case above. *)
Lemma submit_pending_is_submitting (st : State) :
  filled (newCustomer st) ->
  exists k,
    advance (handleSubmit (newCustomer st)) st
    = ({| isModalOpen := isModalOpen st; isSubmitting := true;
          submitError := None; newCustomer := newCustomer st |},
       OnFetch (postCustomer (newCustomer st)) k).
Proof.
  intros Hf. unfold handleSubmit.
  rewrite (filled_not_missing _ Hf). simpl. eauto.
Qed.

(** ** C3: an error body that does not parse *)

(** C3, as stated, fails on both paths.  A 500 response whose body is an
    HTML page makes [response.json()] reject with a [SyntaxError]; the
    dialog then shows that exception's own text, which is neither of the
    two generic messages of the page, and so does the list banner. *)
Lemma malformed_body_generic_counterexample :
  ok htmlError500 = false
  /\ json htmlError500 = Rejected (ThrownError parseErrorText)
  /\ submissionState (final (submit (always htmlError500) adaOpen))
     = Failed parseErrorText
  /\ parseErrorText <> "Failed to add customer"
  /\ parseErrorText <> "An unexpected error occurred"
  /\ errorBanner (hookError (directoryCache (always htmlError500)))
     = Alert parseErrorText.
Proof.
  repeat split; try reflexivity; discriminate.
Qed.

(** C3, amended.  For an error response whose body does not parse
    ([response.json()] rejects with an [Error] of message [m]): on the
    create path [submit] returns normally with [Failed m], the exception's
    own message; on the list path the fetcher rejects with that exception,
    so the cache is in [Error] carrying it and the banner shows [m]. *)
Theorem malformed_body_message (net : Network) (r : Response) (m : string) :
  ok r = false ->
  json r = Rejected (ThrownError m) ->
  (forall st : State,
      filled (newCustomer st) ->
      net (postCustomer (newCustomer st)) = Fulfilled r ->
      result (submit net st) = Fulfilled tt
      /\ submissionState (final (submit net st)) = Failed m)
  /\ (net (getRequest "/api/customers") = Fulfilled r ->
      directoryCache net = Error (ThrownError m)
      /\ errorBanner (hookError (directoryCache net)) = Alert m).
Proof.
  intros Hok Hjson. split.
  - intros st Hf Hnet.
    unfold submit, handleSubmit. rewrite (filled_not_missing _ Hf).
    simpl. rewrite Hnet. simpl. rewrite Hok. simpl. rewrite Hjson. simpl.
    done.
  - intros Hnet.
    unfold directoryCache, fetcher, apiCustomers. simpl.
    rewrite Hnet. simpl. rewrite Hjson. simpl. done.
Qed.

Lemma malformed_body_message_witness :
  (result (submit (always htmlError500) adaOpen) = Fulfilled tt
   /\ submissionState (final (submit (always htmlError500) adaOpen))
      = Failed parseErrorText)
  /\ (directoryCache (always htmlError500) = Error (ThrownError parseErrorText)
      /\ errorBanner (hookError (directoryCache (always htmlError500)))
         = Alert parseErrorText).
Proof.
  pose proof (malformed_body_message (always htmlError500) htmlError500
                parseErrorText eq_refl eq_refl) as [Hcreate Hlist].
  split.
  - apply Hcreate; [exact ada_filled | reflexivity].
  - apply Hlist. reflexivity.
Defined.

(** ** C4: a successful creation *)

(** A [load()] is one request: the GET of the list. *)
Lemma load_requests (net : Network) :
  List.filter isRequest (trace (load net))
  = [EvRequest (getRequest apiCustomers)].
Proof.
  unfold load, fetcher. simpl.
  destruct (net (getRequest apiCustomers)) as [r | e]; simpl; [| reflexivity].
  destruct (json r) as [body | e]; simpl; [| reflexivity].
  by destruct (ok r).
Qed.

(** C4.  For a filled draft and a create response with a 2xx status,
    [submit] returns normally; afterwards the draft is the empty record,
    the dialog is closed and the submission state is [Idle]; and the list
    cache is invalidated: [mutate] has been called on the key of the list,
    in answer to which the cache issues one fresh load, a GET of
    /api/customers, and, whatever state it was in, ends in the state that
    load gives, [Ready] with the customers the endpoint now returns when
    the read succeeds. *)
Theorem submit_success_resets (net : Network) (st : State) (r : Response) :
  filled (newCustomer st) ->
  net (postCustomer (newCustomer st)) = Fulfilled r ->
  (200 <= status r <= 299)%Z ->
  result (submit net st) = Fulfilled tt
  /\ newCustomer (final (submit net st))
     = {[ "firstName" := ""; "lastName" := ""; "email" := "" ]}
  /\ EvEffect (Mutate "/api/customers") ∈ trace (submit net st)
  /\ isModalOpen (final (submit net st)) = false
  /\ submissionState (final (submit net st)) = Idle
  /\ List.filter isRequest (cacheTraffic net (trace (submit net st)))
     = [EvRequest {| url := "/api/customers"; method := "GET";
                     headers := []; body := None |}]
  /\ (forall before : FetchState,
        cacheAfter net before (trace (submit net st)) = directoryCache net)
  /\ (forall (before : FetchState) (answer : Response) (customers : Json),
        net (getRequest "/api/customers") = Fulfilled answer ->
        ok answer = true ->
        json answer = Fulfilled customers ->
        cacheAfter net before (trace (submit net st)) = Ready customers).
Proof.
  intros Hf Hnet Hstatus.
  assert (Hok : ok r = true) by (unfold ok; lia).
  assert (Hrun : submit net st
                 = mkRun (Fulfilled tt)
                     {| isModalOpen := false; isSubmitting := false;
                        submitError := None; newCustomer := emptyCustomer |}
                     [EvEffect (SetSubmitError None);
                      EvEffect (SetIsSubmitting true);
                      EvRequest (postCustomer (newCustomer st));
                      EvResponse (Fulfilled r);
                      EvEffect (SetNewCustomer emptyCustomer);
                      EvEffect (Mutate apiCustomers);
                      EvEffect (SetIsModalOpen false);
                      EvEffect (SetIsSubmitting false)]).
  { unfold submit, handleSubmit. rewrite (filled_not_missing _ Hf).
    simpl. rewrite Hnet. simpl. by rewrite Hok. }
  rewrite Hrun. cbn [result final trace].
  split; [reflexivity |]. split; [reflexivity |].
  split; [unfold apiCustomers; rewrite !elem_of_cons; tauto |].
  split; [reflexivity |]. split; [reflexivity |].
  split; [| split].
  - unfold cacheTraffic. cbn -[load]. rewrite app_nil_r.
    exact (load_requests net).
  - intros before. reflexivity.
  - intros before answer customers Hlist Hlistok Hbody.
    unfold cacheAfter, cacheReaction, load, fetcher, apiCustomers. simpl.
    rewrite Hlist. simpl. rewrite Hbody. simpl. by rewrite Hlistok.
Qed.

Lemma submit_success_resets_witness :
  result (submit backend adaOpen) = Fulfilled tt
  /\ newCustomer (final (submit backend adaOpen))
     = {[ "firstName" := ""; "lastName" := ""; "email" := "" ]}
  /\ EvEffect (Mutate "/api/customers") ∈ trace (submit backend adaOpen)
  /\ isModalOpen (final (submit backend adaOpen)) = false
  /\ submissionState (final (submit backend adaOpen)) = Idle
  /\ List.filter isRequest (cacheTraffic backend (trace (submit backend adaOpen)))
     = [EvRequest {| url := "/api/customers"; method := "GET";
                     headers := []; body := None |}]
  /\ cacheAfter backend (Ready (JArr [])) (trace (submit backend adaOpen))
     = Ready (JArr [adaJson]).
Proof.
  assert (Hstatus : (200 <= status created <= 299)%Z) by (simpl; lia).
  destruct (submit_success_resets backend adaOpen created
              ada_filled eq_refl Hstatus)
    as (Hres & Hdraft & Hmut & Hopen & Hidle & Hget & _ & Hready).
  split; [exact Hres |]. split; [exact Hdraft |]. split; [exact Hmut |].
  split; [exact Hopen |]. split; [exact Hidle |]. split; [exact Hget |].
  apply (Hready (Ready (JArr [])) listing (JArr [adaJson])); reflexivity.
Defined.

(** ** C5: a failed creation *)

(** Every failing create call ends the same way but for the message: the
    handler returns normally, the flag is released, and neither the dialog
    nor the draft is touched. *)
Lemma submit_failure_shape (net : Network) (st : State) :
  filled (newCustomer st) ->
  createFailed (net (postCustomer (newCustomer st))) = true ->
  exists m : string,
    result (submit net st) = Fulfilled tt
    /\ final (submit net st)
       = {| isModalOpen := isModalOpen st; isSubmitting := false;
            submitError := Some m; newCustomer := newCustomer st |}.
Proof.
  intros Hf Hfail.
  unfold submit, handleSubmit. rewrite (filled_not_missing _ Hf). simpl.
  destruct (net (postCustomer (newCustomer st))) as [r | e]; simpl in *.
  - rewrite Hfail. simpl.
    destruct (json r) as [body | e]; simpl.
    + destruct body; simpl; eauto.
    + destruct e; simpl; eauto.
  - destruct e; simpl; eauto.
Qed.

(** C5, as stated, fails.  A 502 whose body is an HTML page carries no
    server message, yet the dialog does not show a generic fallback: it
    shows the text of the [SyntaxError] raised by [response.json()]. *)
Lemma failure_message_counterexample :
  filled (newCustomer adaOpen)
  /\ createFailed (always htmlError502 (postCustomer (newCustomer adaOpen))) = true
  /\ json htmlError502 = Rejected (ThrownError parseErrorText)
  /\ submissionState (final (submit (always htmlError502) adaOpen))
     = Failed parseErrorText
  /\ parseErrorText <> "Failed to add customer"
  /\ parseErrorText <> "An unexpected error occurred".
Proof.
  split; [exact ada_filled |].
  repeat split; try reflexivity; discriminate.
Qed.

(** C5, amended.  For a filled draft and a failing create call, [submit]
    returns normally in a [Failed] state with the dialog and the draft as
    they were.  The message is: the server's, when the error body is an
    object with a non-empty string [message]; "Failed to add customer",
    when the body is an object whose [message] is missing or empty; the
    thrown [Error]'s own message, when [response.json()] or [fetch]
    rejects with an [Error]; "An unexpected error occurred", when [fetch]
    rejects with anything else. *)
Theorem submit_failure_preserves (net : Network) (st : State) :
  filled (newCustomer st) ->
  createFailed (net (postCustomer (newCustomer st))) = true ->
  result (submit net st) = Fulfilled tt
  /\ isModalOpen (final (submit net st)) = isModalOpen st
  /\ newCustomer (final (submit net st)) = newCustomer st
  /\ (exists m, submissionState (final (submit net st)) = Failed m)
  /\ (forall r props m,
         net (postCustomer (newCustomer st)) = Fulfilled r ->
         json r = Fulfilled (JObj props) ->
         ownProp props "message" = Some (JStr m) -> m <> "" ->
         submissionState (final (submit net st)) = Failed m)
  /\ (forall r props,
         net (postCustomer (newCustomer st)) = Fulfilled r ->
         json r = Fulfilled (JObj props) ->
         ownProp props "message" = None \/ ownProp props "message" = Some (JStr "") ->
         submissionState (final (submit net st)) = Failed "Failed to add customer")
  /\ (forall r m,
         net (postCustomer (newCustomer st)) = Fulfilled r ->
         json r = Rejected (ThrownError m) ->
         submissionState (final (submit net st)) = Failed m)
  /\ (forall m,
         net (postCustomer (newCustomer st)) = Rejected (ThrownError m) ->
         submissionState (final (submit net st)) = Failed m)
  /\ (forall v,
         net (postCustomer (newCustomer st)) = Rejected (ThrownValue v) ->
         submissionState (final (submit net st)) = Failed "An unexpected error occurred").
Proof.
  intros Hf Hfail.
  destruct (submit_failure_shape net st Hf Hfail) as (m0 & Hres & Hfin).
  split; [exact Hres |].
  split; [by rewrite Hfin |].
  split; [by rewrite Hfin |].
  split; [exists m0; by rewrite Hfin |].
  clear m0 Hres Hfin.
  unfold submit, handleSubmit. rewrite (filled_not_missing _ Hf). simpl.
  repeat split.
  - intros r props m Hnet Hjson Hmsg Hne.
    rewrite Hnet in Hfail |- *. simpl in *. rewrite Hfail. simpl.
    rewrite Hjson. simpl. rewrite Hmsg. simpl.
    apply String.eqb_neq in Hne. by rewrite Hne.
  - intros r props Hnet Hjson Hmsg.
    rewrite Hnet in Hfail |- *. simpl in *. rewrite Hfail. simpl.
    rewrite Hjson. simpl. by destruct Hmsg as [-> | ->].
  - intros r m Hnet Hjson.
    rewrite Hnet in Hfail |- *. simpl in *. rewrite Hfail. simpl.
    by rewrite Hjson.
  - intros m Hnet. by rewrite Hnet.
  - intros v Hnet. by rewrite Hnet.
Qed.

Lemma submit_failure_preserves_witness :
  isModalOpen (final (submit (always invalidEmail) adaOpen)) = true
  /\ newCustomer (final (submit (always invalidEmail) adaOpen)) = ada
  /\ submissionState (final (submit (always invalidEmail) adaOpen))
     = Failed "Email is invalid".
Proof.
  pose proof (submit_failure_preserves (always invalidEmail) adaOpen
                ada_filled eq_refl)
    as (_ & Hopen & Hdraft & _ & Hserver & _).
  split; [exact Hopen |]. split; [exact Hdraft |].
  apply (Hserver invalidEmail
           [("code", JStr "invalid_email"); ("message", JStr "Email is invalid")]
           "Email is invalid"); try reflexivity.
  discriminate.
Defined.

(** ** C6: the invalidation comes after a confirmed success *)

(** What [guarded] computes. *)
Lemma guarded_sound (tr : list Event) :
  forall seen : bool,
    guarded seen tr = true ->
    forall (pre : list Event) (key : string) (post : list Event),
      tr = (pre ++ EvEffect (Mutate key) :: post)%list ->
      seen = true
      \/ exists resp, EvResponse (Fulfilled resp) ∈ pre /\ ok resp = true.
Proof.
  induction tr as [| ev tr IH]; intros seen Hg pre key post Heq.
  - by destruct pre.
  - simpl in Hg. apply andb_true_iff in Hg as [Hhead Htail].
    destruct pre as [| ev' pre]; simpl in Heq; inversion Heq; subst.
    + left. exact Hhead.
    + destruct (IH _ Htail pre key post eq_refl) as [Hseen | (resp & Hin & Hok)].
      * apply orb_true_iff in Hseen as [-> | Hresp]; [by left | right].
        destruct ev' as [| | [resp |] |]; simpl in Hresp; try discriminate.
        exists resp. split; [apply elem_of_cons; by left | exact Hresp].
      * right. exists resp. split; [apply elem_of_cons; by right | exact Hok].
Qed.

(** The three courses a run of [submit] can take. *)
Lemma submit_trace_cases (net : Network) (st : State) :
  (missingField (newCustomer st) = true
   /\ trace (submit net st)
      = [EvEffect (SetSubmitError None); EvEffect (SetSubmitError (Some fillMessage))])
  \/ (missingField (newCustomer st) = false
      /\ exists r,
          net (postCustomer (newCustomer st)) = Fulfilled r /\ ok r = true
          /\ trace (submit net st)
             = [EvEffect (SetSubmitError None);
                EvEffect (SetIsSubmitting true);
                EvRequest (postCustomer (newCustomer st));
                EvResponse (Fulfilled r);
                EvEffect (SetNewCustomer emptyCustomer);
                EvEffect (Mutate apiCustomers);
                EvEffect (SetIsModalOpen false);
                EvEffect (SetIsSubmitting false)])
  \/ (missingField (newCustomer st) = false
      /\ createFailed (net (postCustomer (newCustomer st))) = true
      /\ Forall (fun ev => isMutate ev = false) (trace (submit net st))).
Proof.
  unfold submit, handleSubmit.
  destruct (missingField (newCustomer st)) eqn:Hmiss; simpl.
  { left. done. }
  right.
  destruct (net (postCustomer (newCustomer st))) as [r | e] eqn:Hnet; simpl.
  - destruct (ok r) eqn:Hok; simpl.
    + left. split; [done |]. exists r. done.
    + right. split; [done |]. split; [done |].
      destruct (json r) as [body | e]; simpl.
      * destruct body; simpl; repeat constructor.
      * destruct e; simpl; repeat constructor.
  - right. split; [done |]. split; [done |].
    destruct e; simpl; repeat constructor.
Qed.

(** C6.  In every run of [submit], a call of [mutate] is preceded in the
    trace by the response of the create call, and that response is [ok];
    and when validation or the create call fails, the trace holds no call
    of [mutate] at all. *)
Theorem invalidation_only_after_success (net : Network) (st : State) :
  (forall (pre : list Event) (key : string) (post : list Event),
      trace (submit net st) = (pre ++ EvEffect (Mutate key) :: post)%list ->
      exists resp,
        net (postCustomer (newCustomer st)) = Fulfilled resp
        /\ ok resp = true
        /\ EvResponse (Fulfilled resp) ∈ pre)
  /\ (missingField (newCustomer st) = true
      \/ createFailed (net (postCustomer (newCustomer st))) = true ->
      Forall (fun ev => isMutate ev = false) (trace (submit net st))).
Proof.
  destruct (submit_trace_cases net st)
    as [(Hmiss & Htr) | [(Hmiss & r & Hnet & Hok & Htr) | (Hmiss & Hfail & Hno)]].
  - rewrite Htr. split.
    + intros pre key post Heq.
      assert (Hin : EvEffect (Mutate key) ∈
                [EvEffect (SetSubmitError None);
                 EvEffect (SetSubmitError (Some fillMessage))]).
      { rewrite Heq. apply elem_of_app. right. apply elem_of_cons. by left. }
      rewrite !elem_of_cons, elem_of_nil in Hin. by destruct Hin as [? | [? | ?]].
    + intros _. repeat constructor.
  - split.
    + intros pre key post Heq.
      assert (Hg : guarded false (trace (submit net st)) = true).
      { rewrite Htr. simpl. by rewrite Hok. }
      destruct (guarded_sound _ _ Hg _ _ _ Heq) as [? | (resp & Hin & Hok')];
        [discriminate |].
      assert (Hin' : EvResponse (Fulfilled resp) ∈ trace (submit net st)).
      { rewrite Heq. apply elem_of_app. by left. }
      rewrite Htr, !elem_of_cons, elem_of_nil in Hin'.
      assert (resp = r) as -> by (intuition congruence).
      exists r. done.
    + rewrite Hnet. simpl. rewrite Hok, Hmiss. intros [? | ?]; discriminate.
  - split; [| intros _; exact Hno].
    intros pre key post Heq.
    rewrite Heq in Hno. apply Forall_app in Hno as [_ Hno].
    apply Forall_cons in Hno as [Hno _]. discriminate.
Qed.

Lemma invalidation_only_after_success_witness :
  Forall (fun ev => isMutate ev = false) (trace (submit offline adaOpen)).
Proof.
  apply (proj2 (invalidation_only_after_success offline adaOpen)).
  right. reflexivity.
Defined.

(** ** C7: the submitting flag is released *)

(** C7.  Every run of [submit] that set the submitting flag ends with the
    flag cleared: the handler returns normally, its last step is
    [setIsSubmitting(false)], and the final state is not submitting,
    whatever the network did. *)
Theorem submitting_flag_released (net : Network) (st : State) :
  (exists ev, ev ∈ trace (submit net st) /\ entersSubmitting ev = true) ->
  isSubmitting (final (submit net st)) = false
  /\ result (submit net st) = Fulfilled tt
  /\ last (trace (submit net st)) = Some (EvEffect (SetIsSubmitting false)).
Proof.
  intros (ev & Hin & Henter).
  unfold submit, handleSubmit in *.
  destruct (missingField (newCustomer st)); simpl in *.
  - rewrite !elem_of_cons, elem_of_nil in Hin.
    destruct Hin as [-> | [-> | []]]; discriminate.
  - clear ev Hin Henter.
    rewrite run_tryFinally_call. simpl.
    split; [reflexivity |]. split.
    + rewrite run_tryCatch.
      destruct (result (run net _ _)) as [[] | [m | v]]; reflexivity.
    + by rewrite app_comm_cons, last_snoc.
Qed.

Lemma submitting_flag_released_witness :
  isSubmitting (final (submit offline adaOpen)) = false
  /\ result (submit offline adaOpen) = Fulfilled tt
  /\ last (trace (submit offline adaOpen)) = Some (EvEffect (SetIsSubmitting false)).
Proof.
  apply (submitting_flag_released offline adaOpen).
  exists (EvEffect (SetIsSubmitting true)). split; [| reflexivity].
  apply elem_of_cons. right. apply elem_of_cons. by left.
Defined.

(** ** C8: a failing list request surfaces in the banner *)

(** C8.  When [GET /api/customers] answers 500 with the body
    [{code: "internal", message: "boom"}], the fetcher rejects with that
    body, the cache is in [Error] carrying it, and the banner above the
    table shows the text "boom". *)
Theorem list_error_surfaces (net : Network) :
  net (getRequest "/api/customers")
  = Fulfilled {| status := 500;
                 json := Fulfilled (JObj [("code", JStr "internal");
                                          ("message", JStr "boom")]) |} ->
  directoryCache net
  = Error (ThrownValue (JObj [("code", JStr "internal"); ("message", JStr "boom")]))
  /\ errorBanner (hookError (directoryCache net)) = Alert "boom".
Proof.
  intros Hnet.
  assert (Hcache : directoryCache net
                   = Error (ThrownValue (JObj [("code", JStr "internal");
                                               ("message", JStr "boom")]))).
  { unfold directoryCache, fetcher, apiCustomers. simpl. by rewrite Hnet. }
  split; [exact Hcache |]. by rewrite Hcache.
Qed.

Lemma list_error_surfaces_witness :
  directoryCache (always internalBoom)
  = Error (ThrownValue (JObj [("code", JStr "internal"); ("message", JStr "boom")]))
  /\ errorBanner (hookError (directoryCache (always internalBoom))) = Alert "boom".
Proof.
  apply (list_error_surfaces (always internalBoom)). reflexivity.
Defined.

(** ** C9: editing one field *)

(** C9.  [setField name value] makes one call, [setNewCustomer], with the
    draft in which [name] is bound to [value] and every other property is
    as before; the error message, the submitting flag and the visibility
    of the dialog are unchanged, and no request is issued.  This holds for
    every name, the three field names included. *)
Theorem setField_frame (net : Network) (name value : string) (st : State) :
  newCustomer (final (setField net name value st)) !! name = Some value
  /\ (forall other : string,
         other <> name ->
         newCustomer (final (setField net name value st)) !! other
         = newCustomer st !! other)
  /\ submitError (final (setField net name value st)) = submitError st
  /\ isSubmitting (final (setField net name value st)) = isSubmitting st
  /\ submissionState (final (setField net name value st)) = submissionState st
  /\ isModalOpen (final (setField net name value st)) = isModalOpen st
  /\ trace (setField net name value st)
     = [EvEffect (SetNewCustomer (<[name := value]> (newCustomer st)))]
  /\ result (setField net name value st) = Fulfilled tt.
Proof.
  unfold setField, handleInputChange. simpl.
  split; [apply lookup_insert_eq |].
  split; [intros other Hne; by apply lookup_insert_ne |].
  done.
Qed.

Lemma setField_frame_witness :
  newCustomer (final (setField offline "email" "ada@example.com" noEmailOpen))
    !! "email" = Some "ada@example.com"
  /\ newCustomer (final (setField offline "email" "ada@example.com" noEmailOpen))
       !! "firstName" = Some "Ada".
Proof.
  destruct (setField_frame offline "email" "ada@example.com" noEmailOpen)
    as (Hset & Hframe & _).
  split; [exact Hset |].
  rewrite (Hframe "firstName"); [reflexivity | discriminate].
Defined.

(** * Further properties *)

(** ** The validation test, exactly *)

Lemma missingField_false_filled (c : Customer) :
  missingField c = false <-> filled c.
Proof.
  split; [| apply filled_not_missing].
  unfold missingField, filled. intros H.
  apply orb_false_iff in H as [H He]. apply orb_false_iff in H as [Hf Hl].
  apply negb_false_iff in Hf, Hl, He.
  destruct (c !! "firstName") as [f |]; [| discriminate].
  destruct (c !! "lastName") as [l |]; [| discriminate].
  destruct (c !! "email") as [e |]; [| discriminate].
  simpl in *. apply negb_true_iff, String.eqb_neq in Hf, Hl, He.
  exists f, l, e. done.
Qed.

(** A filled draft is posted once, whatever the network answers. *)
Lemma filled_posts_once (net : Network) (st : State) :
  filled (newCustomer st) ->
  List.filter isRequest (trace (submit net st))
  = [EvRequest (postCustomer (newCustomer st))].
Proof.
  intros Hf. unfold submit, handleSubmit.
  rewrite (filled_not_missing _ Hf). simpl.
  destruct (net (postCustomer (newCustomer st))) as [r | e]; simpl.
  - destruct (ok r); simpl; [reflexivity |].
    destruct (json r) as [body | e]; simpl.
    + destruct body; reflexivity.
    + destruct e; reflexivity.
  - destruct e; reflexivity.
Qed.

(** X1.  [submit] issues a request exactly when the draft is filled.  A
    filled draft gives one request per run, whatever the network answers:
    a POST to /api/customers with the JSON content type and the draft as
    body.  Any other draft (a field empty, or missing altogether) gives
    the two error-setter calls and nothing else. *)
Theorem submit_posts_iff_filled (net : Network) (st : State) :
  (filled (newCustomer st) ->
     List.filter isRequest (trace (submit net st))
     = [EvRequest {| url := "/api/customers"; method := "POST";
                     headers := [("Content-Type", "application/json")];
                     body := Some (newCustomer st) |}])
  /\ (~ filled (newCustomer st) ->
      trace (submit net st)
      = [EvEffect (SetSubmitError None);
         EvEffect (SetSubmitError (Some "Please fill in all required fields"))]).
Proof.
  split.
  - exact (filled_posts_once net st).
  - intros Hnot. unfold submit, handleSubmit.
    destruct (missingField (newCustomer st)) eqn:Hm; [reflexivity |].
    by apply missingField_false_filled in Hm.
Qed.

Lemma submit_posts_iff_filled_witness :
  List.filter isRequest (trace (submit offline adaOpen))
  = [EvRequest {| url := "/api/customers"; method := "POST";
                  headers := [("Content-Type", "application/json")];
                  body := Some ada |}]
  /\ trace (submit offline initialState)
     = [EvEffect (SetSubmitError None);
        EvEffect (SetSubmitError (Some "Please fill in all required fields"))].
Proof.
  split.
  - apply (proj1 (submit_posts_iff_filled offline adaOpen)). exact ada_filled.
  - apply (proj2 (submit_posts_iff_filled offline initialState)).
    intros (f & l & e & Hf & _ & _ & Nf & _).
    vm_compute in Hf. congruence.
Defined.

(** X2.  On an [ok] response [submit] never calls [response.json()]: a
    success whose body is empty or is not JSON is a success all the same,
    and ends with the dialog closed, the error cleared and the draft
    reset. *)
Theorem success_never_reads_body (net : Network) (st : State) (r : Response) :
  filled (newCustomer st) ->
  net (postCustomer (newCustomer st)) = Fulfilled r ->
  ok r = true ->
  Forall (fun ev => match ev with EvJson _ => False | _ => True end)
         (trace (submit net st))
  /\ final (submit net st)
     = {| isModalOpen := false; isSubmitting := false;
          submitError := None; newCustomer := emptyCustomer |}.
Proof.
  intros Hf Hnet Hok. unfold submit, handleSubmit.
  rewrite (filled_not_missing _ Hf). simpl. rewrite Hnet. simpl.
  rewrite Hok. simpl. split; [| reflexivity].
  repeat constructor.
Qed.

Lemma success_never_reads_body_witness :
  Forall (fun ev => match ev with EvJson _ => False | _ => True end)
         (trace (submit (always noContent) adaOpen))
  /\ final (submit (always noContent) adaOpen)
     = {| isModalOpen := false; isSubmitting := false;
          submitError := None; newCustomer := emptyCustomer |}.
Proof.
  apply (success_never_reads_body (always noContent) adaOpen noContent).
  - exact ada_filled.
  - reflexivity.
  - reflexivity.
Defined.

(** X3.  A failure can be retried as it stands.  After a failed [submit]
    of a filled draft, a second [submit], the create call now answering
    [ok], posts the same draft again and ends as a first-time success:
    dialog closed, no error, draft reset. *)
Theorem retry_after_failure (net1 net2 : Network) (st : State) (r : Response) :
  filled (newCustomer st) ->
  createFailed (net1 (postCustomer (newCustomer st))) = true ->
  net2 (postCustomer (newCustomer st)) = Fulfilled r ->
  ok r = true ->
  let failed := final (submit net1 st) in
  EvRequest (postCustomer (newCustomer st)) ∈ trace (submit net2 failed)
  /\ final (submit net2 failed)
     = {| isModalOpen := false; isSubmitting := false;
          submitError := None; newCustomer := emptyCustomer |}.
Proof.
  intros Hf Hfail Hnet Hok failed.
  destruct (submit_failure_shape net1 st Hf Hfail) as (m & _ & Hfin).
  subst failed. rewrite Hfin.
  unfold submit at 1 2. simpl. unfold handleSubmit.
  rewrite (filled_not_missing _ Hf). simpl. rewrite Hnet. simpl.
  rewrite Hok. simpl. split; [| reflexivity].
  rewrite !elem_of_cons. tauto.
Qed.

Lemma retry_after_failure_witness :
  EvRequest (postCustomer ada)
    ∈ trace (submit (always created) (final (submit offline adaOpen)))
  /\ final (submit (always created) (final (submit offline adaOpen)))
     = {| isModalOpen := false; isSubmitting := false;
          submitError := None; newCustomer := emptyCustomer |}.
Proof.
  apply (retry_after_failure offline (always created) adaOpen created).
  - exact ada_filled.
  - reflexivity.
  - reflexivity.
  - reflexivity.
Defined.

(** ** Editing the draft *)

(** X4.  Field edits compose as assignments do: a second edit of the same
    field overrides the first, and edits of two different fields give the
    same state in either order. *)
Theorem field_edits_compose (net : Network) (st : State)
    (n1 n2 v1 v2 : string) :
  final (setField net n1 v2 (final (setField net n1 v1 st)))
  = final (setField net n1 v2 st)
  /\ (n1 <> n2 ->
      final (setField net n1 v1 (final (setField net n2 v2 st)))
      = final (setField net n2 v2 (final (setField net n1 v1 st)))).
Proof.
  unfold setField, handleInputChange. simpl. split.
  - by rewrite insert_insert_eq.
  - intros Hne. f_equal. by apply insert_insert_ne.
Qed.

Lemma field_edits_compose_witness :
  final (setField offline "email" "a@b.c"
           (final (setField offline "firstName" "Ada" initialState)))
  = final (setField offline "firstName" "Ada"
             (final (setField offline "email" "a@b.c" initialState))).
Proof.
  apply (proj2 (field_edits_compose offline initialState
                  "email" "firstName" "a@b.c" "Ada")).
  discriminate.
Defined.

(** X5.  Starting from the empty draft, typing non-empty values into the
    three fields and submitting posts exactly the record of the three
    values typed. *)
Theorem typed_draft_is_posted (net : Network) (st : State) (f l e : string) :
  newCustomer st = emptyCustomer ->
  f <> "" -> l <> "" -> e <> "" ->
  let typed :=
    final (setField net "email" e
             (final (setField net "lastName" l
                       (final (setField net "firstName" f st))))) in
  newCustomer typed = {[ "firstName" := f; "lastName" := l; "email" := e ]}
  /\ List.filter isRequest (trace (submit net typed))
     = [EvRequest (postCustomer {[ "firstName" := f; "lastName" := l; "email" := e ]})].
Proof.
  intros Hempty Hf Hl He typed.
  assert (Hdraft : newCustomer typed
                   = {[ "firstName" := f; "lastName" := l; "email" := e ]}).
  { subst typed. unfold setField, handleInputChange. simpl. rewrite Hempty.
    unfold emptyCustomer. apply map_eq. intros k.
    rewrite !lookup_insert, !lookup_singleton.
    repeat case_decide; congruence. }
  split; [exact Hdraft |].
  rewrite <- Hdraft. apply filled_posts_once.
  rewrite Hdraft. exists f, l, e. repeat split; try done.
Qed.

Lemma typed_draft_is_posted_witness :
  List.filter isRequest
    (trace (submit offline
              (final (setField offline "email" "ada@example.com"
                 (final (setField offline "lastName" "Lovelace"
                    (final (setField offline "firstName" "Ada" initialState))))))))
  = [EvRequest (postCustomer ada)].
Proof.
  exact (proj2 (typed_draft_is_posted offline initialState
                  "Ada" "Lovelace" "ada@example.com" eq_refl
                  ltac:(discriminate) ltac:(discriminate) ltac:(discriminate))).
Defined.

(** X6.  Keystrokes made while the create request is pending are applied
    to the draft; when the request then fails they are kept (the draft is
    the submitted one with the edit, the dialog as it was), and when it
    succeeds they are discarded with the rest of the draft.  Either way
    the flag is released. *)
Theorem edits_while_in_flight (net : Network) (st st1 : State)
    (req : Request) (k : Settled Response -> Prog unit)
    (name value : string) (o : Settled Response) :
  filled (newCustomer st) ->
  advance (handleSubmit (newCustomer st)) st = (st1, OnFetch req k) ->
  let edited := final (setField net name value st1) in
  let done := final (run net (k o) edited) in
  isSubmitting done = false
  /\ (createFailed o = true ->
      newCustomer done = <[name := value]> (newCustomer st)
      /\ isModalOpen done = isModalOpen st)
  /\ (createFailed o = false ->
      newCustomer done = emptyCustomer /\ isModalOpen done = false).
Proof.
  intros Hf Hpause edited done.
  unfold handleSubmit in Hpause. rewrite (filled_not_missing _ Hf) in Hpause.
  simpl in Hpause. injection Hpause as <- <- <-.
  subst done edited. unfold setField, handleInputChange. simpl.
  destruct o as [r | e]; simpl.
  - destruct (ok r); simpl.
    + split; [done |]. split; [discriminate | done].
    + destruct (json r) as [body | e]; simpl.
      * destruct body; simpl; (split; [done |]); (split; [done | discriminate]).
      * destruct e; simpl; (split; [done |]); (split; [done | discriminate]).
  - destruct e; simpl; (split; [done |]); (split; [done | discriminate]).
Qed.

Lemma edits_while_in_flight_witness :
  exists st1 req k,
    advance (handleSubmit ada) adaOpen = (st1, OnFetch req k)
    /\ newCustomer
         (final (run offline (k (Rejected (ThrownError "Failed to fetch")))
                   (final (setField offline "email" "ada@math.example" st1))))
       = <["email" := "ada@math.example"]> ada.
Proof.
  eexists _, _, _. split; [reflexivity |].
  refine (proj1 (proj1 (proj2
    (edits_while_in_flight offline adaOpen _ _ _ "email" "ada@math.example"
       (Rejected (ThrownError "Failed to fetch")) ada_filled eq_refl)) eq_refl)).
Defined.

(** X7.  Cancelling and reopening brings the draft back: when nothing is
    in flight, [close] followed by the "Add Customer" button shows the
    dialog with the draft as it was left and without the error message. *)
Theorem cancel_then_reopen (net : Network) (st : State) :
  isSubmitting st = false ->
  final (openDialog net (final (close net st)))
  = {| isModalOpen := true; isSubmitting := false;
       submitError := None; newCustomer := newCustomer st |}.
Proof.
  intros Hs. unfold openDialog, close, handleOpen, handleClose.
  rewrite Hs. simpl. by rewrite Hs.
Qed.

Lemma cancel_then_reopen_witness :
  final (openDialog offline (final (close offline adaFailed))) = adaOpen.
Proof. exact (cancel_then_reopen offline adaFailed eq_refl). Defined.

(** ** The fetcher *)

(** X8.  The fetcher fulfils with a value exactly when the response is
    [ok] and its body parses to that value. *)
Theorem fetcher_fulfils_iff (net : Network) (u : string) (st : State) (b : Json) :
  result (run net (fetcher u) st) = Fulfilled b
  <-> exists r, net (getRequest u) = Fulfilled r
                /\ ok r = true /\ json r = Fulfilled b.
Proof.
  unfold fetcher. simpl.
  destruct (net (getRequest u)) as [r | e] eqn:Hnet; simpl.
  - destruct (json r) as [body | e] eqn:Hjson; simpl.
    + destruct (ok r) eqn:Hok; simpl.
      * split.
        -- intros [= ->]. by exists r.
        -- intros (r' & [= <-] & _ & Hb). congruence.
      * split; [discriminate |].
        intros (r' & [= <-] & Hok' & _). congruence.
    + split; [discriminate |].
      intros (r' & [= <-] & _ & ?). congruence.
  - split; [discriminate |]. intros (r' & ? & _). discriminate.
Qed.

Lemma fetcher_fulfils_iff_witness :
  result (run (always created) (fetcher "/api/customers") initialState)
  = Fulfilled (JObj [("id", JNum 7)]).
Proof.
  apply (proj2 (fetcher_fulfils_iff (always created) "/api/customers"
                  initialState (JObj [("id", JNum 7)]))).
  exists created. repeat split.
Defined.

(** X9.  The fetcher issues one request, a GET of its argument without
    body, and leaves the component state alone.  It rejects with the
    reason of [fetch] when the transport fails, with the reason of
    [response.json()] when the body does not parse, whatever the status
    (the body is parsed before the status is looked at), and with the
    parsed body itself when the response is not [ok]. *)
Theorem fetcher_rejections (net : Network) (u : string) (st : State) :
  final (run net (fetcher u) st) = st
  /\ List.filter isRequest (trace (run net (fetcher u) st))
     = [EvRequest {| url := u; method := "GET"; headers := []; body := None |}]
  /\ (forall e, net (getRequest u) = Rejected e ->
        result (run net (fetcher u) st) = Rejected e)
  /\ (forall r e, net (getRequest u) = Fulfilled r -> json r = Rejected e ->
        result (run net (fetcher u) st) = Rejected e)
  /\ (forall r body, net (getRequest u) = Fulfilled r -> json r = Fulfilled body ->
        ok r = false ->
        result (run net (fetcher u) st) = Rejected (ThrownValue body)).
Proof.
  unfold fetcher, getRequest. simpl.
  destruct (net _) as [r | e] eqn:Hnet; simpl.
  - destruct (json r) as [body | e] eqn:Hjson; simpl.
    + destruct (ok r) eqn:Hok; simpl; repeat split; try done.
      * intros r' e [= <-]. congruence.
      * intros r' b' [= <-] ? ?. congruence.
      * intros r' e [= <-]. congruence.
      * intros r' b' [= <-] ? ?. congruence.
    + repeat split; try done.
      * intros r' e' [= <-]. congruence.
      * intros r' b' [= <-] ?. congruence.
  - repeat split; try done. intros e' [= <-]. done.
Qed.

Lemma fetcher_rejections_witness :
  result (run (always noContent) (fetcher "/api/customers") initialState)
  = Rejected (ThrownError "Unexpected end of JSON input").
Proof.
  destruct (fetcher_rejections (always noContent) "/api/customers" initialState)
    as (_ & _ & _ & Hparse & _).
  apply (Hparse noContent); reflexivity.
Defined.

(** ** What is rendered *)

(** X10.  For a non-empty list the table has one row per customer, in the
    order of the list, keyed by position (keys 0, 1, ..., n-1), showing
    the display name and the e-mail; and the number in the heading is the
    number of rows. *)
Theorem table_rows (l : list Customer) :
  l <> [] ->
  exists rows,
    tableBody false (Some l) = CustomerRows rows
    /\ heading (Some l) = pretty (length rows) +:+ " Customers"
    /\ rowKey <$> rows = seq 0 (length l)
    /\ (forall i c, l !! i = Some c ->
          rows !! i = Some {| rowKey := i;
                              nameCell := displayName c;
                              emailCell := default "" (c !! "email") |}).
Proof.
  intros Hne. exists (imap customerRow l).
  split; [by destruct l |].
  split; [simpl; by rewrite length_imap |].
  split.
  - rewrite fmap_imap.
    rewrite <- (list_fmap_id (seq 0 (length l))).
    exact (imap_seq_0 l id).
  - intros i c Hi. by rewrite list_lookup_imap, Hi.
Qed.

Lemma table_rows_witness :
  exists rows,
    tableBody false (Some [ada; emptyCustomer]) = CustomerRows rows
    /\ heading (Some [ada; emptyCustomer]) = pretty (length rows) +:+ " Customers"
    /\ rowKey <$> rows = seq 0 (length [ada; emptyCustomer])
    /\ (forall i c, [ada; emptyCustomer] !! i = Some c ->
          rows !! i = Some {| rowKey := i;
                              nameCell := displayName c;
                              emailCell := default "" (c !! "email") |}).
Proof. apply (table_rows [ada; emptyCustomer]). discriminate. Defined.

Lemma split_at_space (f1 f2 l1 l2 : string) :
  noSpace f1 = true -> noSpace f2 = true ->
  f1 +:+ " " +:+ l1 = f2 +:+ " " +:+ l2 ->
  f1 = f2 /\ l1 = l2.
Proof.
  revert f2. induction f1 as [| a f1 IH]; intros [| b f2] H1 H2 Heq;
    simpl in *.
  - by injection Heq.
  - injection Heq as <- _. by rewrite Ascii.eqb_refl in H2.
  - injection Heq as -> _. by rewrite Ascii.eqb_refl in H1.
  - injection Heq as -> Heq.
    apply andb_true_iff in H1 as [_ H1]. apply andb_true_iff in H2 as [_ H2].
    destruct (IH f2 H1 H2 Heq) as [-> ->]. done.
Qed.

(** X11.  Display names tell customers apart as long as first names hold
    no space: two customers with such first names, each with a last name,
    and the same display name have the same first name and the same last
    name. *)
Theorem displayName_unambiguous (c1 c2 : Customer) (f1 f2 : string) :
  c1 !! "firstName" = Some f1 -> c2 !! "firstName" = Some f2 ->
  noSpace f1 = true -> noSpace f2 = true ->
  is_Some (c1 !! "lastName") -> is_Some (c2 !! "lastName") ->
  displayName c1 = displayName c2 ->
  c1 !! "firstName" = c2 !! "firstName" /\ c1 !! "lastName" = c2 !! "lastName".
Proof.
  intros Hf1 Hf2 Hn1 Hn2 [l1 Hl1] [l2 Hl2]. unfold displayName.
  rewrite Hf1, Hl1, Hf2, Hl2. simpl. intros Heq.
  destruct (split_at_space f1 f2 l1 l2 Hn1 Hn2 Heq) as [-> ->]. done.
Qed.

Lemma displayName_unambiguous_witness :
  ada !! "firstName" = (<["email" := ""]> ada) !! "firstName"
  /\ ada !! "lastName" = (<["email" := ""]> ada) !! "lastName".
Proof.
  apply (displayName_unambiguous ada (<["email" := ""]> ada) "Ada" "Ada");
    try reflexivity; by eexists.
Defined.

(** X12.  When the create call answers with an error whose body is an
    object with a string [message], or with no [message], the dialog shows
    an alert and its text is not empty. *)
Theorem failure_alert_visible (net : Network) (st : State) (r : Response)
    (props : list (string * Json)) :
  filled (newCustomer st) ->
  net (postCustomer (newCustomer st)) = Fulfilled r ->
  ok r = false ->
  json r = Fulfilled (JObj props) ->
  ownProp props "message" = None
  \/ (exists s, ownProp props "message" = Some (JStr s)) ->
  exists m, dialogAlert (submitError (final (submit net st))) = Some m /\ m <> "".
Proof.
  intros Hf Hnet Hok Hjson Hmsg.
  unfold submit, handleSubmit. rewrite (filled_not_missing _ Hf). simpl.
  rewrite Hnet. simpl. rewrite Hok. simpl. rewrite Hjson. simpl.
  destruct Hmsg as [-> | (s & ->)]; simpl.
  - exists "Failed to add customer". done.
  - destruct (String.eqb s "") eqn:Hs; simpl.
    + exists "Failed to add customer". done.
    + exists s. rewrite Hs. split; [done |]. by apply String.eqb_neq.
Qed.

Lemma failure_alert_visible_witness :
  exists m,
    dialogAlert (submitError (final (submit (always invalidEmail) adaOpen))) = Some m
    /\ m <> "".
Proof.
  apply (failure_alert_visible (always invalidEmail) adaOpen invalidEmail
           [("code", JStr "invalid_email"); ("message", JStr "Email is invalid")]).
  - exact ada_filled.
  - reflexivity.
  - reflexivity.
  - reflexivity.
  - right. by exists "Email is invalid".
Defined.

(** ** The page as a whole *)

Lemma handleSubmit_pause (c : Customer) (st : State) :
  missingField c = false ->
  exists k,
    advance (handleSubmit c) st
    = ({| isModalOpen := isModalOpen st; isSubmitting := true;
          submitError := None; newCustomer := newCustomer st |},
       OnFetch (postCustomer c) k)
    /\ settlesFetch k.
Proof.
  intros Hm. unfold handleSubmit. rewrite Hm. simpl.
  eexists. split; [reflexivity |].
  intros [r | e] st'; simpl.
  - destruct (ok r); simpl.
    + right. left. reflexivity.
    + right. right. eexists _, _. split; [reflexivity |].
      intros [body | e] st''; simpl.
      * destruct body; simpl; eauto.
      * destruct e; simpl; eauto.
  - left. destruct e; simpl; eauto.
Qed.

Lemma handleSubmit_rejected (c : Customer) (st : State) :
  missingField c = true ->
  advance (handleSubmit c) st
  = ({| isModalOpen := isModalOpen st; isSubmitting := isSubmitting st;
        submitError := Some fillMessage; newCustomer := newCustomer st |},
     Finished (Fulfilled tt)).
Proof. intros Hm. unfold handleSubmit. by rewrite Hm. Qed.

Lemma fieldName_draftKeys (f : Field) : fieldName f ∈ draftKeys.
Proof.
  destruct f; unfold draftKeys; rewrite !elem_of_union, !elem_of_singleton; tauto.
Qed.

Lemma emptyCustomer_keys : dom emptyCustomer = draftKeys.
Proof.
  unfold emptyCustomer, draftKeys.
  rewrite !dom_insert_L, dom_singleton_L. by rewrite (assoc_L (∪)).
Qed.

Lemma initialPage_invariant : pageInvariant initialPage.
Proof.
  split; [done |]. split; [exact emptyCustomer_keys |]. left. done.
Qed.

(** Every turn of the event loop keeps the invariant. *)
Lemma turn_invariant (w w' : Page) :
  turn w w' -> pageInvariant w -> pageInvariant w'.
Proof.
  intros Hturn (Hun & Hkeys & Hfl).
  destruct Hturn as [isLoading ev w Hreacts | w before after req k o Hin | w before after r k Hin].
  - destruct w as [st fl un]; simpl in *. subst un.
    assert (Hkeep : forall st' : State,
               dom (newCustomer st') = draftKeys ->
               isSubmitting st' = isSubmitting st ->
               (isModalOpen st = true -> isModalOpen st' = true) ->
               pageInvariant {| ui := st'; inflight := fl; unhandled := [] |}).
    { intros st' Hk Hs Ho. split; [done |]. split; [done |]. simpl.
      destruct Hfl as [[-> Hs'] | (p & -> & Hp & Hs' & Ho')].
      - left. by rewrite Hs.
      - right. exists p. rewrite Hs. auto. }
    destruct ev as [| f value | | |]; unfold fire, landed;
      cbn [handlerOf reacts ui inflight unhandled] in *.
    + simpl. rewrite app_nil_r. by apply Hkeep.
    + simpl. rewrite app_nil_r. apply Hkeep; simpl; try done.
      rewrite dom_insert_L, Hkeys.
      apply subseteq_union_1_L, singleton_subseteq_l, fieldName_draftKeys.
    + apply andb_true_iff in Hreacts as [Hopen Hidle].
      apply negb_true_iff in Hidle. rewrite Hidle. simpl.
      destruct Hfl as [[-> Hs] | (p & -> & Hp & Hs & Ho)]; [| congruence].
      split; [done |]. split; [done |]. left. done.
    + apply andb_true_iff in Hreacts as [Hopen Hidle].
      apply negb_true_iff in Hidle.
      destruct Hfl as [[-> Hs] | (p & -> & Hp & Hs & Ho)]; [| congruence].
      destruct (missingField (newCustomer st)) eqn:Hm.
      * rewrite (handleSubmit_rejected _ _ Hm). simpl.
        split; [done |]. split; [done |]. left. done.
      * destruct (handleSubmit_pause _ st Hm) as (k & -> & Hk). simpl.
        split; [done |]. split; [done |]. right.
        exists (OnFetch (postCustomer (newCustomer st)) k). done.
    + destruct Hfl as [[-> Hs] | (p & -> & Hp & Hs & Ho)]; rewrite Hs; simpl.
      * split; [done |]. split; [done |]. left. done.
      * split; [done |]. split; [done |]. right. exists p. done.
  - destruct Hfl as [[Hnil _] | (p & Hone & Hp & Hs & Ho)].
    { rewrite Hnil in Hin. by destruct before. }
    rewrite Hone in Hin.
    destruct before as [| ? [| ? ?]]; simpl in Hin; try discriminate.
    injection Hin as -> <-. simpl in Hp.
    destruct (Hp o (ui w)) as [(m & ->) | [-> | (r & k' & -> & Hk')]];
      unfold landed; simpl; rewrite Hun.
    + split; [done |]. split; [done |]. left. done.
    + split; [done |]. split; [exact emptyCustomer_keys |]. left. done.
    + split; [done |]. split; [done |]. right.
      exists (OnJson r k'). done.
  - destruct Hfl as [[Hnil _] | (p & Hone & Hp & Hs & Ho)].
    { rewrite Hnil in Hin. by destruct before. }
    rewrite Hone in Hin.
    destruct before as [| ? [| ? ?]]; simpl in Hin; try discriminate.
    injection Hin as -> <-. simpl in Hp.
    destruct (Hp (json r) (ui w)) as (m & ->). unfold landed; simpl.
    rewrite Hun. split; [done |]. split; [done |]. left. done.
Qed.

Lemma reachable_invariant (w : Page) : reachable w -> pageInvariant w.
Proof.
  unfold reachable. revert w.
  apply (rtc_ind_r pageInvariant initialPage).
  - exact initialPage_invariant.
  - intros w1 w2 _ Hturn IH. exact (turn_invariant _ _ Hturn IH).
Qed.

Lemma reachable_fire (isLoading : bool) (ev : UserEvent) (w : Page) :
  reachable w -> reacts isLoading (ui w) ev = true -> reachable (fire ev w).
Proof.
  intros Hw Hr. eapply rtc_r; [exact Hw |]. by apply (turn_user isLoading).
Qed.

Lemma submittedPage_reachable : reachable submittedPage.
Proof.
  unfold submittedPage.
  repeat (apply (reachable_fire false); [| vm_compute; reflexivity]).
  apply rtc_refl.
Qed.

Lemma submittedPage_in_flight : inflight submittedPage <> [].
Proof. vm_compute. discriminate. Qed.

(** X13.  However the user clicks and types and however the network
    answers, at most one handler is ever parked on a promise: the page
    never has two create requests in flight. *)
Theorem one_create_in_flight (w : Page) :
  reachable w -> length (inflight w) <= 1.
Proof.
  intros Hw.
  destruct (reachable_invariant w Hw) as (_ & _ & [[-> _] | (p & -> & _)]);
    simpl; lia.
Qed.

Lemma one_create_in_flight_witness : length (inflight submittedPage) <= 1.
Proof. exact (one_create_in_flight submittedPage submittedPage_reachable). Defined.

(** X14.  On every reachable page the submitting flag is set exactly while
    a submission is in flight; and then the submit button reads
    "Creating..." and neither it nor the Cancel button reacts. *)
Theorem submitting_iff_in_flight (w : Page) :
  reachable w ->
  (isSubmitting (ui w) = true <-> inflight w <> [])
  /\ (inflight w <> [] ->
      createLabel (isSubmitting (ui w)) = "Creating..."
      /\ forall isLoading,
          reacts isLoading (ui w) ClickCreate = false
          /\ reacts isLoading (ui w) ClickCancel = false).
Proof.
  intros Hw.
  destruct (reachable_invariant w Hw)
    as (_ & _ & [[Hnil Hs] | (p & Hone & _ & Hs & Ho)]).
  - rewrite Hnil, Hs. split; [split; [discriminate | done] | done].
  - rewrite Hone. split; [split; [discriminate | done] |].
    intros _. simpl. rewrite Hs, Ho. done.
Qed.

Lemma submitting_iff_in_flight_witness :
  isSubmitting (ui submittedPage) = true
  /\ createLabel (isSubmitting (ui submittedPage)) = "Creating...".
Proof.
  destruct (submitting_iff_in_flight submittedPage submittedPage_reachable)
    as [Hiff Hctl].
  split.
  - apply Hiff. exact submittedPage_in_flight.
  - apply Hctl. exact submittedPage_in_flight.
Defined.

(** X15.  While a submission is in flight the dialog is open, and nothing
    the user can do closes it or starts a second submission: after any
    control that reacts, the dialog is still open and the handlers in
    flight are the same. *)
Theorem dialog_held_open_in_flight (w : Page) :
  reachable w ->
  inflight w <> [] ->
  isModalOpen (ui w) = true
  /\ forall isLoading ev,
      reacts isLoading (ui w) ev = true ->
      isModalOpen (ui (fire ev w)) = true /\ inflight (fire ev w) = inflight w.
Proof.
  intros Hw Hne.
  destruct (reachable_invariant w Hw)
    as (_ & _ & [[Hnil _] | (p & Hone & _ & Hs & Ho)]); [done |].
  split; [exact Ho |].
  intros isLoading ev Hr.
  destruct ev as [| f value | | |]; unfold fire, landed; simpl in *;
    rewrite ?Hs, ?Ho in *; simpl in *; try discriminate;
    by rewrite ?app_nil_r.
Qed.

Lemma dialog_held_open_in_flight_witness :
  isModalOpen (ui submittedPage) = true
  /\ isModalOpen (ui (fire DismissDialog submittedPage)) = true.
Proof.
  destruct (dialog_held_open_in_flight submittedPage submittedPage_reachable
              submittedPage_in_flight) as [Hopen Hev].
  split; [exact Hopen |].
  apply (Hev false DismissDialog). reflexivity.
Defined.

(** X16.  No handler of the page ever ends by throwing: on every reachable
    page the list of unhandled rejections is empty. *)
Theorem no_unhandled_rejection (w : Page) :
  reachable w -> unhandled w = [].
Proof. intros Hw. apply (reachable_invariant w Hw). Qed.

Lemma no_unhandled_rejection_witness : unhandled submittedPage = [].
Proof. exact (no_unhandled_rejection submittedPage submittedPage_reachable). Defined.

(** X17.  On every reachable page the draft has its three fields, each a
    string, and no other property. *)
Theorem draft_fields_always_present (w : Page) :
  reachable w ->
  (forall f : Field, is_Some (newCustomer (ui w) !! fieldName f))
  /\ (forall k : string,
        is_Some (newCustomer (ui w) !! k) ->
        k = "firstName" \/ k = "lastName" \/ k = "email").
Proof.
  intros Hw. destruct (reachable_invariant w Hw) as (_ & Hkeys & _).
  split.
  - intros f. apply elem_of_dom. rewrite Hkeys. apply fieldName_draftKeys.
  - intros k Hk. apply elem_of_dom in Hk. rewrite Hkeys in Hk.
    unfold draftKeys in Hk. rewrite !elem_of_union, !elem_of_singleton in Hk.
    tauto.
Qed.

Lemma draft_fields_always_present_witness :
  is_Some (newCustomer (ui submittedPage) !! fieldName Email).
Proof.
  exact (proj1 (draft_fields_always_present submittedPage submittedPage_reachable) Email).
Defined.
